(** * Rear-camera resolution of the EVS support library

    A shallow embedding of [Utils::getRearCameraId]
    (evs/support_library/Utils.cpp) and the properties of its
    camera-matching loop.

    The function loads the camera configuration, asks the EVS enumerator
    service for the list of cameras and, inside the callback that receives
    the list, walks it in order; for every camera it scans all the
    configured cameras and stops at the first pair with equal ids whose
    configured [function] string contains "reverse".

    The id of an enumerated camera is a [hidl_string]; its comparison with
    the id of a configured camera is the comparison of two C strings, which
    ends at the first NUL character, and the log lines print it as a C
    string.  The value returned is the whole id. *)

From Stdlib Require Import String Ascii List Bool Arith NArith Lia Permutation.
Import ListNotations.
Local Open Scope string_scope.
Local Open Scope list_scope.

Set Implicit Arguments.

(* ================================================================== *)
(** ** std::string::find *)

Module StdString.

(** [starts_with s needle]: the characters of [needle] are the first
    characters of [s]. *)
Fixpoint starts_with (s needle : string) {struct needle} : bool :=
  match needle, s with
  | EmptyString, _ => true
  | String _ _, EmptyString => false
  | String a needle', String b s' => Ascii.eqb a b && starts_with s' needle'
  end.

(** [find_from s needle pos]: [s] is what remains of the searched string
    from position [pos] on; the lowest position at which [needle] occurs,
    [None] for [std::string::npos]. *)
Fixpoint find_from (s needle : string) (pos : nat) : option nat :=
  if starts_with s needle then Some pos
  else match s with
       | EmptyString => None
       | String _ s' => find_from s' needle (S pos)
       end.

(** [s.find(needle)], searching from position 0. *)
Definition find (s needle : string) : option nat := find_from s needle 0.

(** [r == std::string::npos] for the result [r] of a search. *)
Definition is_npos (r : option nat) : bool :=
  match r with None => true | Some _ => false end.

(** [needle] occurs somewhere inside [s]. *)
Definition Contains (needle s : string) : Prop :=
  exists pre post : string, s = (pre ++ needle ++ post)%string.

End StdString.

(* ================================================================== *)
(** ** hidl_string: C strings and their comparison *)

Module HidlString.

Definition NUL : ascii := "000"%char.

(** [s.c_str()] as the C library reads it: the characters before the first
    NUL, all of them when there is none. *)
Fixpoint c_str (s : string) : string :=
  match s with
  | EmptyString => EmptyString
  | String a s' =>
      if Ascii.eqb a NUL then EmptyString else String a (c_str s')
  end.

(** [strcmp] on two C strings: the order of the first characters that
    differ, as unsigned characters. *)
Definition strcmp (s1 s2 : string) : comparison := String.compare s1 s2.

(** [hs1 == hs2], which is [strcmp(hs1.c_str(), hs2.c_str()) == 0]; a
    [std::string] operand is first made a [hidl_string] of the same
    characters. *)
Definition eq (hs1 hs2 : string) : bool :=
  match strcmp (c_str hs1) (c_str hs2) with
  | Eq => true
  | _ => false
  end.

(** No character of [s] is NUL. *)
Definition NulFree (s : string) : Prop := c_str s = s.

End HidlString.

(* ================================================================== *)
(** ** Data *)

(** One configured camera, as [ConfigManager::getCameras] hands it out; the
    resolution reads its [cameraId] and its [function] string. *)
Module CameraInfo.
Record t : Set := mk { cameraId : string; function : string }.
End CameraInfo.

(** One camera reported by the enumerator; the resolution reads its
    [cameraId]. *)
Module CameraDesc.
Record t : Set := mk { cameraId : string }.
End CameraDesc.

Definition hidl_vec (A : Set) : Set := list A.

(** The configuration object: the cameras it holds, in the order of the
    configuration file.  A default-constructed one holds none. *)
Module ConfigManager.
Record t : Set := mk { mCameras : list CameraInfo.t }.
Definition fresh : t := mk [].
Definition getCameras (c : t) : list CameraInfo.t := mCameras c.
End ConfigManager.

(** The enumerator service.  [getCameraList] hands the list of cameras to
    the callback it is given, by value. *)
Module IEvsEnumerator.
Record t : Set := mk { cameras : hidl_vec CameraDesc.t }.
Definition getCameraList {R : Type} (evs : t)
           (_hidl_cb : hidl_vec CameraDesc.t -> R) : R :=
  _hidl_cb (cameras evs).
End IEvsEnumerator.

(** What the function finds around it: what [ConfigManager::initialize]
    does to a configuration object for a given file name (the result flag
    and the object afterwards), and what [IEvsEnumerator::getService]
    answers for a service name ([None] for the null pointer). *)
Record World : Type := mkWorld {
  initialize : ConfigManager.t -> string -> bool * ConfigManager.t;
  getService : string -> option IEvsEnumerator.t
}.

(** The log lines, one constructor per logging statement, with the
    arguments of its format string. *)
Inductive LogMsg : Set :=
| MissingConfiguration                 (* ALOGE, line 38 *)
| AcquiringEnumerator                  (* ALOGI, line 42 *)
| GetServiceNull (name : string)       (* ALOGE, line 45 *)
| RequestingCameraList                 (* ALOGD, line 49 *)
| CallbackReceived (n : nat)           (* ALOGI, line 52 *)
| FoundCamera (id : string)            (* ALOGD, line 54 *)
| MatchedReverse (id : string).        (* ALOGD, line 62 *)

(* ================================================================== *)
(** ** The callback: state, monad and loops *)

(** What the callback can touch: its by-value parameter [cameraList], the
    two variables it captures by reference, and the log. *)
Record Frame : Set := mkFrame {
  cameraList : hidl_vec CameraDesc.t;
  config : ConfigManager.t;
  cameraId : string;
  logcat : list LogMsg
}.

(** How a statement ends: control goes on, or the callback has returned. *)
Inductive Flow : Set := Continue | Returned.

Definition M (A : Type) : Type := Frame -> A * Frame.

Definition ret {A} (a : A) : M A := fun fr => (a, fr).
Definition bind {A B} (m : M A) (k : A -> M B) : M B :=
  fun fr => let (a, fr') := m fr in k a fr'.

Declare Scope frame_scope.
Delimit Scope frame_scope with frame.
Notation "x <- m ;; k" := (bind m (fun x => k))
  (at level 61, m at next level, right associativity) : frame_scope.
Notation "m ;; k" := (bind m (fun _ => k))
  (at level 61, right associativity) : frame_scope.
Local Open Scope frame_scope.

Definition ALOG (m : LogMsg) : M unit :=
  fun fr => (tt, mkFrame (cameraList fr) (config fr) (cameraId fr)
                         (logcat fr ++ [m])).
Definition read_cameraList : M (hidl_vec CameraDesc.t) :=
  fun fr => (cameraList fr, fr).
Definition read_config : M ConfigManager.t := fun fr => (config fr, fr).
Definition assign_cameraId (id : string) : M unit :=
  fun fr => (tt, mkFrame (cameraList fr) (config fr) id (logcat fr)).

(** A range-based [for] whose body may return from the enclosing
    function: the elements are visited in order until one returns. *)
Fixpoint for_each {A} (body : A -> M Flow) (range : list A) : M Flow :=
  match range with
  | [] => ret Continue
  | x :: rest =>
      f <- body x ;;
      match f with
      | Returned => ret Returned
      | Continue => for_each body rest
      end
  end.

(** Lines 59-67, the body of the loop over the configured cameras.  The
    [==] of line 59 is that of [hidl_string]; line 62 prints the id as a C
    string; line 64 copies the whole id of the enumerated camera. *)
Definition inner_body (cam : CameraDesc.t) (info : CameraInfo.t) : M Flow :=
  if HidlString.eq (CameraDesc.cameraId cam) (CameraInfo.cameraId info) then
    if negb (StdString.is_npos
               (StdString.find (CameraInfo.function info) "reverse")) then
      ALOG (MatchedReverse (HidlString.c_str (CameraDesc.cameraId cam))) ;;
      assign_cameraId (CameraDesc.cameraId cam) ;;
      ret Returned
    else ret Continue
  else ret Continue.

(** Lines 54-68, the body of the loop over the enumerated cameras.  Line
    54 prints the id as a C string. *)
Definition outer_body (cam : CameraDesc.t) : M Flow :=
  ALOG (FoundCamera (HidlString.c_str (CameraDesc.cameraId cam))) ;;
  cfg <- read_config ;;
  for_each (inner_body cam) (ConfigManager.getCameras cfg).

(** Lines 51-70, the callback handed to [getCameraList]. *)
Definition callback : M unit :=
  cams <- read_cameraList ;;
  ALOG (CallbackReceived (List.length cams)) ;;
  for_each outer_body cams ;;
  ret tt.

(* ================================================================== *)
(** ** Utils::getRearCameraId *)

Definition camera_config_json : string :=
  "/system/etc/automotive/evs_support_lib/camera_config.json".

(** The function returns the camera id; the model also gives the log lines
    it wrote. *)
Definition getRearCameraId (w : World) : string * list LogMsg :=
  let evsServiceName := "EvsEnumeratorV1_0" in
  let (ok, config) := initialize w ConfigManager.fresh camera_config_json in
  if negb ok then (EmptyString, [MissingConfiguration])
  else
    let log1 := [AcquiringEnumerator] in
    match getService w evsServiceName with
    | None => (EmptyString, log1 ++ [GetServiceNull evsServiceName])
    | Some evs =>
        let log2 := log1 ++ [RequestingCameraList] in
        let fr :=
          IEvsEnumerator.getCameraList evs (fun cameraList =>
            snd (callback (mkFrame cameraList config EmptyString log2))) in
        (cameraId fr, logcat fr)
    end.

(* ================================================================== *)
(** ** Reading the code: what the loops decide *)

(** The test of lines 59 and 61 on one pair of cameras. *)
Definition reverse_entry (cam : CameraDesc.t) (info : CameraInfo.t) : bool :=
  HidlString.eq (CameraDesc.cameraId cam) (CameraInfo.cameraId info)
  && negb (StdString.is_npos
             (StdString.find (CameraInfo.function info) "reverse")).

(** The enumerated camera has a configured camera whose id is the same C
    string and whose function string contains "reverse". *)
Definition Qualifies (infos : list CameraInfo.t) (cam : CameraDesc.t) : Prop :=
  exists info,
    In info infos
    /\ HidlString.c_str (CameraInfo.cameraId info)
       = HidlString.c_str (CameraDesc.cameraId cam)
    /\ StdString.Contains "reverse" (CameraInfo.function info).

(** No configured camera has, as a C string, the id of the enumerated
    camera. *)
Definition Unconfigured (infos : list CameraInfo.t) (cam : CameraDesc.t) : Prop :=
  forall info, In info infos ->
               HidlString.c_str (CameraInfo.cameraId info)
               <> HidlString.c_str (CameraDesc.cameraId cam).

(** The same two with ids that are exactly equal, character for character,
    as the specification words them. *)
Definition QualifiesExactly
           (infos : list CameraInfo.t) (cam : CameraDesc.t) : Prop :=
  exists info,
    In info infos
    /\ CameraInfo.cameraId info = CameraDesc.cameraId cam
    /\ StdString.Contains "reverse" (CameraInfo.function info).

Definition UnconfiguredExactly
           (infos : list CameraInfo.t) (cam : CameraDesc.t) : Prop :=
  forall info, In info infos ->
               CameraInfo.cameraId info <> CameraDesc.cameraId cam.

(** The id of an enumerated camera as the log lines print it. *)
Definition printed (cam : CameraDesc.t) : string :=
  HidlString.c_str (CameraDesc.cameraId cam).

(** The cameras the callback looked at: the ids of the [FoundCamera] lines
    of a log, in order. *)
Fixpoint examined (log : list LogMsg) : list string :=
  match log with
  | [] => []
  | FoundCamera id :: log' => id :: examined log'
  | _ :: log' => examined log'
  end.

(** The log lines and the outcome of the loop over the enumerated cameras,
    as a function of the two lists. *)
Fixpoint scan (infos : list CameraInfo.t) (cams : list CameraDesc.t)
  : list LogMsg * option string :=
  match cams with
  | [] => ([], None)
  | cam :: rest =>
      let id := CameraDesc.cameraId cam in
      if existsb (reverse_entry cam) infos
      then ([FoundCamera (printed cam); MatchedReverse (printed cam)], Some id)
      else let (log, r) := scan infos rest in
           (FoundCamera (printed cam) :: log, r)
  end.

(** The value the caller reads when the callback found nothing and when it
    found a camera. *)
Definition outcome (before : string) (r : option string) : string :=
  match r with Some id => id | None => before end.

(** The result [id] and the ids [seen] of the cameras looked at are those
    of a first-match search of [cams]: the first qualifying camera, and
    the cameras up to it; or nothing and all of them. *)
Definition FirstMatch (infos : list CameraInfo.t) (cams : list CameraDesc.t)
           (r : option string) (seen : list string) : Prop :=
  (exists pre c post,
      cams = pre ++ c :: post
      /\ (forall d, In d pre -> ~ Qualifies infos d)
      /\ Qualifies infos c
      /\ r = Some (CameraDesc.cameraId c)
      /\ seen = map printed (pre ++ [c]))
  \/ ((forall d, In d cams -> ~ Qualifies infos d)
      /\ r = None
      /\ seen = map printed cams).

(** *** Duplicate identifiers, as the specification supposes them

    The first configured camera bearing an id decides for that id. *)
Definition first_entry (id : string) (infos : list CameraInfo.t)
  : option CameraInfo.t :=
  List.find (fun info => String.eqb id (CameraInfo.cameraId info)) infos.

Definition FirstOccurrenceQualifies
           (infos : list CameraInfo.t) (cam : CameraDesc.t) : Prop :=
  exists info,
    first_entry (CameraDesc.cameraId cam) infos = Some info
    /\ StdString.Contains "reverse" (CameraInfo.function info).

(** What the code does with one enumerated camera: the loop over the
    configured cameras returns from the callback. *)
Definition Matches (infos : list CameraInfo.t) (cam : CameraDesc.t) : Prop :=
  forall fr, fst (for_each (inner_body cam) infos fr) = Returned.

(* ================================================================== *)
(** ** Worlds to run the function in *)

(** An id with a NUL character in it: A, NUL, x. *)
Definition id_A_NUL_x : string :=
  String "A"%char (String HidlString.NUL (String "x"%char EmptyString)).

Definition cam (id : string) : CameraDesc.t := CameraDesc.mk id.
Definition info (id function : string) : CameraInfo.t :=
  CameraInfo.mk id function.

(** A world whose configuration loads the given cameras and whose
    enumerator reports the given list. *)
Definition world_of (infos : list CameraInfo.t) (cams : list CameraDesc.t)
  : World :=
  mkWorld (fun _ _ => (true, ConfigManager.mk infos))
          (fun _ => Some (IEvsEnumerator.mk cams)).

(** The same with a configuration that fails to load, having read the
    given cameras before it failed, and with an enumerator that cannot be
    reached. *)
Definition world_bad_config (infos : list CameraInfo.t)
           (cams : list CameraDesc.t) : World :=
  mkWorld (fun _ _ => (false, ConfigManager.mk infos))
          (fun _ => Some (IEvsEnumerator.mk cams)).

Definition world_no_service (infos : list CameraInfo.t) : World :=
  mkWorld (fun _ _ => (true, ConfigManager.mk infos))
          (fun _ => None).

(* ================================================================== *)
(** ** Parts of a configuration *)

(** The test of line 61 alone: the function string of a configured camera
    contains "reverse". *)
Definition has_reverse (i : CameraInfo.t) : bool :=
  negb (StdString.is_npos (StdString.find (CameraInfo.function i) "reverse")).

(** The test of line 59 against a whole enumeration: some enumerated
    camera has, by the [==] of that line, the id of the configured camera. *)
Definition enumerated (cams : list CameraDesc.t) (i : CameraInfo.t) : bool :=
  existsb (fun c => HidlString.eq (CameraDesc.cameraId c)
                                  (CameraInfo.cameraId i))
          cams.

(* ================================================================== *)
(** ** std::string::find and containment *)

Module StdStringFacts.
Import StdString.

Lemma starts_with_iff (s needle : string) :
  starts_with s needle = true <-> exists post, s = (needle ++ post)%string.
Proof.
  revert s; induction needle as [|a needle IH]; intros s; simpl.
  - split; [intros _; now exists s | reflexivity].
  - destruct s as [|b s].
    + split; [discriminate | intros [post H]; discriminate].
    + rewrite andb_true_iff, Ascii.eqb_eq, IH. split.
      * intros [-> [post ->]]. now exists post.
      * intros [post H]. injection H as -> ->. split; [reflexivity|now exists post].
Qed.

Lemma find_from_found (s needle : string) (pos : nat) :
  is_npos (find_from s needle pos) = false <-> Contains needle s.
Proof.
  revert pos; induction s as [|c s IH]; intros pos; simpl.
  - destruct (starts_with "" needle) eqn:E; simpl.
    + split; [intros _|reflexivity].
      apply starts_with_iff in E. destruct E as [post E].
      exists ""%string, post. exact E.
    + split; [discriminate|].
      intros (pre & post & H). exfalso.
      destruct pre; [|discriminate]. simpl in H.
      assert (starts_with "" needle = true) as E'
          by (apply starts_with_iff; now exists post).
      congruence.
  - destruct (starts_with (String c s) needle) eqn:E; simpl.
    + split; [intros _|reflexivity].
      apply starts_with_iff in E. destruct E as [post E].
      exists ""%string, post. exact E.
    + rewrite IH. split.
      * intros (pre & post & ->). now exists (String c pre), post.
      * intros (pre & post & H). destruct pre as [|c' pre]; simpl in H.
        -- assert (starts_with (String c s) needle = true) as E'
              by (apply starts_with_iff; now exists post).
           congruence.
        -- injection H as _ ->. now exists pre, post.
Qed.

(** [s.find(needle) != npos] exactly when [needle] occurs in [s]. *)
Lemma find_found (s needle : string) :
  negb (is_npos (find s needle)) = true <-> Contains needle s.
Proof.
  unfold find. rewrite negb_true_iff. apply find_from_found.
Qed.

End StdStringFacts.

(* ================================================================== *)
(** ** The comparison of hidl_string *)

Module HidlStringFacts.
Import HidlString.

Lemma strcmp_same (s : string) : strcmp s s = Eq.
Proof.
  unfold strcmp. induction s as [|a s IH]; simpl; [reflexivity|].
  unfold Ascii.compare. now rewrite N.compare_refl.
Qed.

(** [==] holds exactly when the two C strings are the same. *)
Lemma eq_iff (hs1 hs2 : string) :
  eq hs1 hs2 = true <-> c_str hs1 = c_str hs2.
Proof.
  unfold eq, strcmp. split.
  - intros H. apply String.compare_eq_iff.
    destruct (String.compare (c_str hs1) (c_str hs2));
      [reflexivity | discriminate H | discriminate H].
  - intros ->. fold (strcmp (c_str hs2) (c_str hs2)).
    now rewrite strcmp_same.
Qed.

Lemma eq_same_c_str (a b hs : string) :
  c_str a = c_str b -> eq a hs = eq b hs.
Proof.
  intros E. unfold eq. now rewrite E.
Qed.

(** Reading a C string as a C string changes nothing. *)
Lemma c_str_idempotent (s : string) : c_str (c_str s) = c_str s.
Proof.
  induction s as [|a s IH]; simpl; [reflexivity|].
  destruct (Ascii.eqb a NUL) eqn:E; simpl; [reflexivity|].
  now rewrite E, IH.
Qed.

(** Strings that are equal are equal as C strings; for strings without
    NUL the converse holds. *)
Lemma eq_of_equal (a b : string) : a = b -> eq a b = true.
Proof.
  intros ->. now apply eq_iff.
Qed.

Lemma equal_of_eq (a b : string) :
  NulFree a -> NulFree b -> eq a b = true -> a = b.
Proof.
  unfold NulFree. intros Ha Hb E. apply eq_iff in E. congruence.
Qed.

End HidlStringFacts.

(* ================================================================== *)
(** ** The loops *)

Section Loops.

Variable infos : list CameraInfo.t.

Lemma reverse_entry_iff (c : CameraDesc.t) (i : CameraInfo.t) :
  reverse_entry c i = true <->
  HidlString.c_str (CameraInfo.cameraId i)
  = HidlString.c_str (CameraDesc.cameraId c)
  /\ StdString.Contains "reverse" (CameraInfo.function i).
Proof.
  unfold reverse_entry.
  rewrite andb_true_iff, HidlStringFacts.eq_iff, StdStringFacts.find_found.
  split; intros [H1 H2]; split; auto.
Qed.

Lemma existsb_reverse_entry (c : CameraDesc.t) :
  existsb (reverse_entry c) infos = true <-> Qualifies infos c.
Proof.
  rewrite existsb_exists. unfold Qualifies.
  split; intros (i & Hin & H); exists i.
  - apply reverse_entry_iff in H. tauto.
  - split; [tauto | apply reverse_entry_iff; tauto].
Qed.

Lemma existsb_reverse_entry_false (c : CameraDesc.t) :
  existsb (reverse_entry c) infos = false <-> ~ Qualifies infos c.
Proof.
  rewrite <- existsb_reverse_entry.
  destruct (existsb (reverse_entry c) infos); split; congruence.
Qed.

(** Exactly equal ids are equal as C strings; for ids without NUL the two
    readings of a match agree. *)
Lemma QualifiesExactly_Qualifies (c : CameraDesc.t) :
  QualifiesExactly infos c -> Qualifies infos c.
Proof.
  intros (i & Hin & Hid & Hf). exists i. rewrite Hid. auto.
Qed.

Lemma Qualifies_nul_free (c : CameraDesc.t) :
  HidlString.NulFree (CameraDesc.cameraId c) ->
  (forall i, In i infos -> HidlString.NulFree (CameraInfo.cameraId i)) ->
  (Qualifies infos c <-> QualifiesExactly infos c).
Proof.
  intros Hc Hi. split; [|apply QualifiesExactly_Qualifies].
  intros (i & Hin & Hid & Hf). exists i. split; [exact Hin|]. split; [|exact Hf].
  unfold HidlString.NulFree in *. rewrite <- Hc, <- (Hi i Hin). exact Hid.
Qed.

Lemma Unconfigured_not_Qualifies (c : CameraDesc.t) :
  Unconfigured infos c -> ~ Qualifies infos c.
Proof.
  intros U (i & Hin & Hid & _). exact (U i Hin Hid).
Qed.

End Loops.

(** The loop over the configured cameras: it returns, with the id assigned
    and one log line written, exactly when some pair passes the two tests;
    otherwise it leaves everything as it was. *)
Lemma inner_loop (c : CameraDesc.t) (infos : list CameraInfo.t) (fr : Frame) :
  for_each (inner_body c) infos fr =
  if existsb (reverse_entry c) infos
  then (Returned,
        mkFrame (cameraList fr) (config fr) (CameraDesc.cameraId c)
                (logcat fr ++ [MatchedReverse (printed c)]))
  else (Continue, fr).
Proof.
  induction infos as [|i infos IH]; [reflexivity|].
  cbn [for_each existsb]. unfold bind at 1, inner_body at 1, reverse_entry at 1.
  destruct (HidlString.eq (CameraDesc.cameraId c) (CameraInfo.cameraId i));
    cbn [andb orb].
  - destruct (StdString.is_npos
                (StdString.find (CameraInfo.function i) "reverse"));
      cbn [negb orb].
    + exact IH.
    + reflexivity.
  - exact IH.
Qed.

(** The loop over the enumerated cameras follows [scan]. *)
Lemma outer_loop (cams : list CameraDesc.t) (fr : Frame) :
  for_each outer_body cams fr =
  let (log, r) := scan (ConfigManager.getCameras (config fr)) cams in
  (match r with Some _ => Returned | None => Continue end,
   mkFrame (cameraList fr) (config fr) (outcome (cameraId fr) r)
           (logcat fr ++ log)).
Proof.
  revert fr; induction cams as [|c cams IH]; intros fr; simpl.
  - unfold ret. rewrite app_nil_r. now destruct fr.
  - unfold bind at 1. unfold outer_body, bind, ALOG, read_config; simpl.
    rewrite inner_loop; simpl.
    destruct (existsb (reverse_entry c)
                      (ConfigManager.getCameras (config fr))); simpl.
    + unfold ret. now rewrite <- app_assoc.
    + rewrite IH; simpl.
      destruct (scan (ConfigManager.getCameras (config fr)) cams) as [log r].
      now rewrite <- app_assoc.
Qed.

Lemma callback_run (fr : Frame) :
  callback fr =
  let (log, r) := scan (ConfigManager.getCameras (config fr)) (cameraList fr) in
  (tt, mkFrame (cameraList fr) (config fr) (outcome (cameraId fr) r)
               (logcat fr
                  ++ CallbackReceived (List.length (cameraList fr)) :: log)).
Proof.
  unfold callback, bind, read_cameraList, ALOG; simpl.
  rewrite outer_loop; simpl.
  destruct (scan (ConfigManager.getCameras (config fr)) (cameraList fr))
    as [log r].
  unfold ret. now rewrite <- app_assoc.
Qed.

(** The whole function, when the configuration loads and the service
    answers. *)
Lemma getRearCameraId_run (w : World) (cfg : ConfigManager.t)
      (evs : IEvsEnumerator.t) :
  initialize w ConfigManager.fresh camera_config_json = (true, cfg) ->
  getService w "EvsEnumeratorV1_0" = Some evs ->
  getRearCameraId w =
  let (log, r) := scan (ConfigManager.getCameras cfg)
                       (IEvsEnumerator.cameras evs) in
  (outcome "" r,
   [AcquiringEnumerator; RequestingCameraList;
    CallbackReceived (List.length (IEvsEnumerator.cameras evs))] ++ log).
Proof.
  intros Hi Hs. unfold getRearCameraId. rewrite Hi, Hs; simpl.
  unfold IEvsEnumerator.getCameraList. rewrite callback_run; simpl.
  now destruct (scan _ _).
Qed.

(* ================================================================== *)
(** ** What [scan] computes *)

Lemma scan_FirstMatch (infos : list CameraInfo.t) (cams : list CameraDesc.t) :
  FirstMatch infos cams (snd (scan infos cams)) (examined (fst (scan infos cams))).
Proof.
  induction cams as [|c cams IH]; simpl.
  - right. repeat split. intros d [].
  - destruct (existsb (reverse_entry c) infos) eqn:E.
    + left. exists [], c, cams. simpl. repeat split.
      * intros d [].
      * now apply existsb_reverse_entry.
    + apply existsb_reverse_entry_false in E.
      destruct (scan infos cams) as [log r]; simpl in *.
      destruct IH as [(pre & c' & post & -> & Hpre & Hc & -> & Hseen)
                     | (Hall & -> & Hseen)].
      * left. exists (c :: pre), c', post. simpl. repeat split; auto.
        -- intros d [<-|Hd]; auto.
        -- now rewrite Hseen.
      * right. repeat split.
        -- intros d [<-|Hd]; auto.
        -- now rewrite Hseen.
Qed.

(** A camera that does not qualify changes nothing of the outcome. *)
Lemma scan_skip (infos : list CameraInfo.t) (pre post : list CameraDesc.t)
      (c : CameraDesc.t) :
  ~ Qualifies infos c ->
  snd (scan infos (pre ++ c :: post)) = snd (scan infos (pre ++ post)).
Proof.
  intros Hc. apply existsb_reverse_entry_false in Hc.
  induction pre as [|d pre IH]; simpl.
  - rewrite Hc. now destruct (scan infos post).
  - destruct (existsb (reverse_entry d) infos); [reflexivity|].
    destruct (scan infos (pre ++ c :: post)), (scan infos (pre ++ post)).
    exact IH.
Qed.

(* ================================================================== *)
(** ** Properties of the resolution *)

Section Resolution.

Variable w : World.
Variable cfg : ConfigManager.t.
Variable evs : IEvsEnumerator.t.

Local Abbreviation infos := (ConfigManager.getCameras cfg).
Local Abbreviation cams := (IEvsEnumerator.cameras evs).

Hypothesis config_loaded :
  initialize w ConfigManager.fresh camera_config_json = (true, cfg).
Hypothesis service_found :
  getService w "EvsEnumeratorV1_0" = Some evs.

Lemma result_is_scan :
  fst (getRearCameraId w) = outcome "" (snd (scan infos cams))
  /\ examined (snd (getRearCameraId w)) = examined (fst (scan infos cams)).
Proof.
  rewrite (getRearCameraId_run _ config_loaded service_found).
  now destruct (scan _ _).
Qed.

(** C1, as the code has it.  With the configuration loaded and the
    enumerator reached, the function returns the id of the first
    enumerated camera, in the order of the enumeration, that has a
    configured camera whose id is the same C string (the same characters
    up to the first NUL) and whose function string contains "reverse", and
    the cameras it looked at are those up to that one and no further; when
    no enumerated camera is such, it returns the empty string, having
    looked at all of them. *)
Theorem getRearCameraId_first_match :
  (exists pre c post,
      cams = pre ++ c :: post
      /\ (forall d, In d pre -> ~ Qualifies infos d)
      /\ Qualifies infos c
      /\ fst (getRearCameraId w) = CameraDesc.cameraId c
      /\ examined (snd (getRearCameraId w)) = map printed (pre ++ [c]))
  \/ ((forall d, In d cams -> ~ Qualifies infos d)
      /\ fst (getRearCameraId w) = ""
      /\ examined (snd (getRearCameraId w)) = map printed cams).
Proof.
  destruct result_is_scan as [-> ->].
  destruct (scan_FirstMatch infos cams)
    as [(pre & c & post & E & Hpre & Hc & -> & Hseen) | (Hall & -> & Hseen)].
  - left. exists pre, c, post. auto.
  - right. auto.
Qed.

(** C9, as the code has it.  A non-empty result is the id of an
    enumerated camera, and some configured camera carries an id that is
    the same C string as the result (the same characters up to the first
    NUL), with a function string that contains "reverse". *)
Theorem getRearCameraId_sound :
  fst (getRearCameraId w) <> "" ->
  (exists c, In c cams /\ CameraDesc.cameraId c = fst (getRearCameraId w))
  /\ (exists i, In i infos
                /\ HidlString.c_str (CameraInfo.cameraId i)
                   = HidlString.c_str (fst (getRearCameraId w))
                /\ StdString.Contains "reverse" (CameraInfo.function i)).
Proof.
  intros Hne. destruct result_is_scan as [E _]. rewrite E in *. clear E.
  destruct (scan_FirstMatch infos cams)
    as [(pre & c & post & E & _ & (i & Hi & Hid & Hf) & Hr & _) | (_ & Hr & _)];
    rewrite Hr in *; simpl in *; [|contradiction].
  split.
  - exists c. split; [|reflexivity].
    rewrite E. apply in_or_app. right. now left.
  - exists i. auto.
Qed.

(** C10. The function returns the empty string in exactly two cases: no
    enumerated camera matches a configured camera with "reverse" in its
    function, or the first one that does has the empty string as its id.
    The caller sees the same value in both. *)
Theorem getRearCameraId_empty_result :
  fst (getRearCameraId w) = "" <->
  (forall d, In d cams -> ~ Qualifies infos d)
  \/ (exists pre c post,
         cams = pre ++ c :: post
         /\ (forall d, In d pre -> ~ Qualifies infos d)
         /\ Qualifies infos c
         /\ CameraDesc.cameraId c = "").
Proof.
  destruct result_is_scan as [-> _].
  destruct (scan_FirstMatch infos cams)
    as [(pre & c & post & E & Hpre & Hc & -> & _) | (Hall & -> & _)]; simpl.
  - split.
    + intros H0. right. exists pre, c, post. auto.
    + intros [Hall | (pre' & c' & post' & E' & Hpre' & Hc' & H0)].
      * exfalso. apply (Hall c); [|exact Hc].
        rewrite E. apply in_or_app. right. now left.
      * assert (pre = pre' /\ c = c') as [_ <-]; [|exact H0].
        clear - E E' Hpre Hpre' Hc Hc'. rewrite E in E'. clear E.
        revert pre' E' Hpre'.
        induction pre as [|a pre IH]; intros [|a' pre'] E' Hpre'; simpl in E'.
        -- injection E' as -> _. auto.
        -- injection E' as -> _. exfalso. apply (Hpre' a'); [now left|exact Hc].
        -- injection E' as -> _. exfalso. apply (Hpre c'); [now left|exact Hc'].
        -- injection E' as -> E'.
           destruct (IH (fun d Hd => Hpre d (or_intror Hd)) pre' E'
                        (fun d Hd => Hpre' d (or_intror Hd))) as [-> ->].
           auto.
  - split; [intros _; now left | reflexivity].
Qed.

End Resolution.

(** C7. With an empty enumeration the function returns the empty string,
    whatever the configuration holds and whether or not it loaded. *)
Theorem getRearCameraId_no_cameras (w : World) (evs : IEvsEnumerator.t) :
  getService w "EvsEnumeratorV1_0" = Some evs ->
  IEvsEnumerator.cameras evs = [] ->
  fst (getRearCameraId w) = "".
Proof.
  intros Hs E. unfold getRearCameraId.
  destruct (initialize w ConfigManager.fresh camera_config_json) as [[|] c];
    simpl; [|reflexivity].
  rewrite Hs. unfold IEvsEnumerator.getCameraList.
  rewrite callback_run, E. reflexivity.
Qed.

(** C4. When the configuration fails to load the function returns the
    empty string, whatever the enumerator would report. *)
Theorem getRearCameraId_bad_config (w : World) :
  fst (initialize w ConfigManager.fresh camera_config_json) = false ->
  fst (getRearCameraId w) = "".
Proof.
  intros H. unfold getRearCameraId.
  destruct (initialize w ConfigManager.fresh camera_config_json) as [ok c].
  simpl in H. now rewrite H.
Qed.

(** C5. When the enumerator service cannot be reached the function returns
    the empty string, and so it does in a world with the same
    configuration whose enumerator answers with no camera: the returned
    value is the same in both. *)
Theorem getRearCameraId_no_service (w w' : World) (evs : IEvsEnumerator.t) :
  getService w "EvsEnumeratorV1_0" = None ->
  initialize w' ConfigManager.fresh camera_config_json
  = initialize w ConfigManager.fresh camera_config_json ->
  getService w' "EvsEnumeratorV1_0" = Some evs ->
  IEvsEnumerator.cameras evs = [] ->
  fst (getRearCameraId w) = ""
  /\ fst (getRearCameraId w') = fst (getRearCameraId w).
Proof.
  intros Hn Hi Hs E. unfold getRearCameraId. rewrite Hi, Hn, Hs.
  destruct (initialize w ConfigManager.fresh camera_config_json) as [[|] c];
    simpl; [|split; reflexivity].
  unfold IEvsEnumerator.getCameraList. rewrite callback_run, E.
  split; reflexivity.
Qed.

(** C6, as the code has it.  An enumerated camera whose id is, as a C
    string (the characters up to the first NUL), the id of no configured
    camera is passed over: the loop over the configured cameras ends
    without a return and without touching anything, and the function
    returns what it returns for the enumeration without that camera. *)
Theorem getRearCameraId_unconfigured_skipped
        (w w' : World) (cfg : ConfigManager.t)
        (pre post : list CameraDesc.t) (c : CameraDesc.t) :
  initialize w ConfigManager.fresh camera_config_json = (true, cfg) ->
  initialize w' ConfigManager.fresh camera_config_json = (true, cfg) ->
  getService w "EvsEnumeratorV1_0"
  = Some (IEvsEnumerator.mk (pre ++ c :: post)) ->
  getService w' "EvsEnumeratorV1_0"
  = Some (IEvsEnumerator.mk (pre ++ post)) ->
  Unconfigured (ConfigManager.getCameras cfg) c ->
  (forall fr,
      for_each (inner_body c) (ConfigManager.getCameras cfg) fr
      = (Continue, fr))
  /\ fst (getRearCameraId w) = fst (getRearCameraId w').
Proof.
  intros Hi Hi' Hs Hs' U.
  apply Unconfigured_not_Qualifies in U. split.
  - intros fr. rewrite inner_loop.
    apply existsb_reverse_entry_false in U. now rewrite U.
  - destruct (@result_is_scan _ _ _ Hi Hs) as [-> _].
    destruct (@result_is_scan _ _ _ Hi' Hs') as [-> _].
    simpl. now rewrite (scan_skip _ _ U).
Qed.

(** C2, as the code has it.  Every configured camera bearing the id
    counts, and ids are compared as C strings (up to the first NUL): the
    loop over the configured cameras returns for an enumerated camera
    exactly when at least one configured camera whose id is the same C
    string has a function string containing "reverse".  So it returns when
    the first configured camera of that id is such, whatever the later
    ones are, and also when only a later one is. *)
Theorem any_occurrence_matches
        (infos : list CameraInfo.t) (c : CameraDesc.t) :
  (Matches infos c <-> Qualifies infos c)
  /\ (FirstOccurrenceQualifies infos c -> Matches infos c).
Proof.
  assert (Matches infos c <-> Qualifies infos c) as A.
  { rewrite <- existsb_reverse_entry. unfold Matches. split.
    - intros H. specialize (H (mkFrame [] ConfigManager.fresh "" [])).
      rewrite inner_loop in H.
      now destruct (existsb (reverse_entry c) infos).
    - intros E fr. now rewrite inner_loop, E. }
  split; [exact A|].
  intros (i & Hf & Hc). apply A. exists i.
  unfold first_entry in Hf. apply find_some in Hf. destruct Hf as [Hin He].
  apply String.eqb_eq in He. rewrite He. auto.
Qed.

(* ================================================================== *)
(** ** The properties at work *)

(** C3. Matching is containment, not equality of tags: the body of the
    loop over the configured cameras returns for a pair of cameras exactly
    when the ids are the same C string and "reverse" occurs somewhere in
    the configured function string.  With configured cameras A of function
    "reverse-assist" and C of function "reverse", enumerated in the order
    A, C, the function returns A, having looked at A only, although
    "reverse-assist" is not the string "reverse". *)
Theorem substring_match_reverse_assist :
  (forall c i fr,
      fst (inner_body c i fr) = Returned
      <-> HidlString.c_str (CameraInfo.cameraId i)
          = HidlString.c_str (CameraDesc.cameraId c)
          /\ StdString.Contains "reverse" (CameraInfo.function i))
  /\ StdString.Contains "reverse" "reverse-assist"
  /\ String.eqb "reverse-assist" "reverse" = false
  /\ fst (getRearCameraId
            (world_of [info "A" "reverse-assist"; info "C" "reverse"]
                      [cam "A"; cam "C"])) = "A"
  /\ examined (snd (getRearCameraId
                      (world_of [info "A" "reverse-assist"; info "C" "reverse"]
                                [cam "A"; cam "C"]))) = ["A"].
Proof.
  split; [|split; [|repeat split]].
  - intros c i fr. rewrite <- reverse_entry_iff.
    unfold inner_body, reverse_entry.
    destruct (HidlString.eq (CameraDesc.cameraId c) (CameraInfo.cameraId i));
      cbn [andb].
    + destruct (negb (StdString.is_npos
                        (StdString.find (CameraInfo.function i) "reverse")));
        simpl; split; congruence.
    + simpl. split; congruence.
  - exists ""%string, "-assist"%string. reflexivity.
Qed.

(** C1 fails on the code: the enumerated camera of id A NUL x has no
    configured camera of exactly that id, the only configured id being A,
    and yet the function returns it. *)
Lemma nul_id_matches_without_equal_id :
  (forall d, In d [cam id_A_NUL_x]
             -> ~ QualifiesExactly [info "A" "reverse"] d)
  /\ fst (getRearCameraId (world_of [info "A" "reverse"] [cam id_A_NUL_x]))
     = id_A_NUL_x
  /\ String.eqb id_A_NUL_x "" = false.
Proof.
  split; [|split; reflexivity].
  intros d [<-|[]] (i & [<-|[]] & Hid & _). discriminate Hid.
Qed.

(** C6 fails on the code: no configured camera has the id A NUL x, and yet
    the enumeration with that camera gives A NUL x where the enumeration
    without it gives the empty string. *)
Lemma nul_id_unconfigured_not_skipped :
  UnconfiguredExactly [info "A" "reverse"] (cam id_A_NUL_x)
  /\ fst (getRearCameraId
            (world_of [info "A" "reverse"] ([] ++ cam id_A_NUL_x :: [])))
     = id_A_NUL_x
  /\ fst (getRearCameraId (world_of [info "A" "reverse"] ([] ++ []))) = "".
Proof.
  split; [|split; reflexivity].
  intros i [<-|[]] Hid. discriminate Hid.
Qed.

(** C9 fails on the code: the result A NUL x is not empty and no
    configured camera carries it as its id. *)
Lemma nul_id_result_not_configured :
  fst (getRearCameraId (world_of [info "A" "reverse"] [cam id_A_NUL_x]))
  = id_A_NUL_x
  /\ String.eqb
       (fst (getRearCameraId (world_of [info "A" "reverse"] [cam id_A_NUL_x])))
       "" = false
  /\ (forall i, In i [info "A" "reverse"] ->
                CameraInfo.cameraId i
                <> fst (getRearCameraId
                          (world_of [info "A" "reverse"] [cam id_A_NUL_x]))).
Proof.
  split; [reflexivity|]. split; [reflexivity|].
  intros i [<-|[]] Hid. discriminate Hid.
Qed.

(** C2 fails on the code: with the configured cameras A "front" and then
    A "reverse", the first one bearing the id A has no "reverse" in its
    function, and yet the enumerated camera A matches and is returned. *)
Lemma later_duplicate_matches :
  Matches [info "A" "front"; info "A" "reverse"] (cam "A")
  /\ ~ FirstOccurrenceQualifies [info "A" "front"; info "A" "reverse"] (cam "A")
  /\ fst (getRearCameraId
            (world_of [info "A" "front"; info "A" "reverse"] [cam "A"])) = "A".
Proof.
  split; [|split].
  - intros fr. rewrite inner_loop. reflexivity.
  - intros (i & Hf & Hc). vm_compute in Hf. injection Hf as <-.
    apply StdStringFacts.find_found in Hc. discriminate Hc.
  - reflexivity.
Qed.

(** The corrected C2 on the two configured cameras of id A. *)
Lemma any_occurrence_matches_witness :
  (Matches [info "A" "front"; info "A" "reverse"] (cam "A")
   <-> Qualifies [info "A" "front"; info "A" "reverse"] (cam "A"))
  /\ (FirstOccurrenceQualifies [info "A" "front"; info "A" "reverse"] (cam "A")
      -> Matches [info "A" "front"; info "A" "reverse"] (cam "A")).
Proof.
  exact (any_occurrence_matches
           [info "A" "front"; info "A" "reverse"] (cam "A")).
Defined.

(** The corrected C1 on an enumeration B, A NUL x, C of which A and C are
    configured: the result is A NUL x, and the log shows B and A. *)
Lemma getRearCameraId_first_match_witness :
  let infos := [info "A" "reverse-assist"; info "C" "reverse"] in
  let cams := [cam "B"; cam id_A_NUL_x; cam "C"] in
  let w := world_of infos cams in
  initialize w ConfigManager.fresh camera_config_json
  = (true, ConfigManager.mk infos)
  /\ getService w "EvsEnumeratorV1_0" = Some (IEvsEnumerator.mk cams)
  /\ fst (getRearCameraId w) = id_A_NUL_x
  /\ examined (snd (getRearCameraId w)) = ["B"; "A"]
  /\ ((exists pre c post,
          cams = pre ++ c :: post
          /\ (forall d, In d pre -> ~ Qualifies infos d)
          /\ Qualifies infos c
          /\ fst (getRearCameraId w) = CameraDesc.cameraId c
          /\ examined (snd (getRearCameraId w)) = map printed (pre ++ [c]))
      \/ ((forall d, In d cams -> ~ Qualifies infos d)
          /\ fst (getRearCameraId w) = ""
          /\ examined (snd (getRearCameraId w)) = map printed cams)).
Proof.
  cbv zeta. do 4 (split; [reflexivity|]).
  apply (@getRearCameraId_first_match
           (world_of [info "A" "reverse-assist"; info "C" "reverse"]
                     [cam "B"; cam id_A_NUL_x; cam "C"])
           (ConfigManager.mk [info "A" "reverse-assist"; info "C" "reverse"])
           (IEvsEnumerator.mk [cam "B"; cam id_A_NUL_x; cam "C"]));
    reflexivity.
Defined.

(** The corrected C9 on the same world, where the result is A NUL x and
    the configured id is A. *)
Lemma getRearCameraId_sound_witness :
  let infos := [info "A" "reverse-assist"; info "C" "reverse"] in
  let cams := [cam "B"; cam id_A_NUL_x; cam "C"] in
  let w := world_of infos cams in
  fst (getRearCameraId w) = id_A_NUL_x
  /\ (exists c, In c cams /\ CameraDesc.cameraId c = fst (getRearCameraId w))
  /\ (exists i, In i infos
                /\ HidlString.c_str (CameraInfo.cameraId i)
                   = HidlString.c_str (fst (getRearCameraId w))
                /\ StdString.Contains "reverse" (CameraInfo.function i)).
Proof.
  cbv zeta. split; [reflexivity|].
  apply (@getRearCameraId_sound
           (world_of [info "A" "reverse-assist"; info "C" "reverse"]
                     [cam "B"; cam id_A_NUL_x; cam "C"])
           (ConfigManager.mk [info "A" "reverse-assist"; info "C" "reverse"])
           (IEvsEnumerator.mk [cam "B"; cam id_A_NUL_x; cam "C"]));
    [reflexivity | reflexivity | vm_compute; discriminate].
Defined.

(** C10 on a configured and enumerated camera whose id is the empty
    string: the result is that of an empty enumeration. *)
Lemma getRearCameraId_empty_result_witness :
  let infos := [info "" "reverse"] in
  let cams := [cam ""; cam "A"] in
  Qualifies infos (cam "")
  /\ fst (getRearCameraId (world_of infos cams)) = ""
  /\ fst (getRearCameraId (world_of infos [])) = "".
Proof.
  cbv zeta.
  assert (Qualifies [info "" "reverse"] (cam "")) as Q.
  { exists (info "" "reverse"). split; [now left|]. split; [reflexivity|].
    exists ""%string, ""%string. reflexivity. }
  split; [exact Q|]. split.
  - apply (@getRearCameraId_empty_result
             (world_of [info "" "reverse"] [cam ""; cam "A"])
             (ConfigManager.mk [info "" "reverse"])
             (IEvsEnumerator.mk [cam ""; cam "A"]) eq_refl eq_refl).
    right. exists [], (cam ""), [cam "A"]. simpl.
    split; [reflexivity|]. split; [intros d []|]. split; [exact Q|reflexivity].
  - reflexivity.
Defined.

(** C7 on a configuration with a rear camera and no enumerated camera. *)
Lemma getRearCameraId_no_cameras_witness :
  IEvsEnumerator.cameras (IEvsEnumerator.mk []) = []
  /\ fst (getRearCameraId (world_of [info "A" "reverse"] [])) = "".
Proof.
  split; [reflexivity|].
  apply (@getRearCameraId_no_cameras
           (world_of [info "A" "reverse"] []) (IEvsEnumerator.mk []));
    reflexivity.
Defined.

(** C4 on a world where the camera A would match, had the configuration
    loaded. *)
Lemma getRearCameraId_bad_config_witness :
  let w := world_bad_config [info "A" "reverse"] [cam "A"] in
  fst (initialize w ConfigManager.fresh camera_config_json) = false
  /\ fst (getRearCameraId w) = "".
Proof.
  cbv zeta. split; [reflexivity|].
  apply (@getRearCameraId_bad_config
           (world_bad_config [info "A" "reverse"] [cam "A"])).
  reflexivity.
Defined.

(** C5 on one configuration, without a service and with a service that
    reports no camera. *)
Lemma getRearCameraId_no_service_witness :
  let w := world_no_service [info "A" "reverse"] in
  let w' := world_of [info "A" "reverse"] [] in
  getService w "EvsEnumeratorV1_0" = None
  /\ fst (getRearCameraId w) = ""
  /\ fst (getRearCameraId w') = fst (getRearCameraId w).
Proof.
  cbv zeta. split; [reflexivity|].
  apply (@getRearCameraId_no_service
           (world_no_service [info "A" "reverse"])
           (world_of [info "A" "reverse"] [])
           (IEvsEnumerator.mk []));
    reflexivity.
Defined.

(** The corrected C6 on the enumeration B, X, A, where X is not
    configured. *)
Lemma getRearCameraId_unconfigured_skipped_witness :
  let infos := [info "A" "reverse"] in
  let w := world_of infos [cam "B"; cam "X"; cam "A"] in
  let w' := world_of infos [cam "B"; cam "A"] in
  Unconfigured infos (cam "X")
  /\ fst (getRearCameraId w') = "A"
  /\ (forall fr, for_each (inner_body (cam "X")) infos fr = (Continue, fr))
  /\ fst (getRearCameraId w) = fst (getRearCameraId w').
Proof.
  cbv zeta.
  assert (Unconfigured [info "A" "reverse"] (cam "X")) as U.
  { intros i [<-|[]]. simpl. discriminate. }
  split; [exact U|]. split; [reflexivity|].
  apply (@getRearCameraId_unconfigured_skipped
           (world_of [info "A" "reverse"] [cam "B"; cam "X"; cam "A"])
           (world_of [info "A" "reverse"] [cam "B"; cam "A"])
           (ConfigManager.mk [info "A" "reverse"])
           [cam "B"] [cam "A"] (cam "X"));
    [reflexivity | reflexivity | reflexivity | reflexivity | exact U].
Defined.

(* ================================================================== *)
(** ** Further properties: what the outcome depends on *)


Lemma string_length_append (a b : string) :
  String.length (a ++ b)%string = String.length a + String.length b.
Proof.
  induction a as [|c a IH]; simpl; [reflexivity | now rewrite IH].
Qed.

Lemma Contains_length (needle s : string) :
  StdString.Contains needle s -> String.length needle <= String.length s.
Proof.
  intros (pre & post & ->). rewrite !string_length_append. lia.
Qed.

(** Two configurations that give every enumerated camera the same verdict
    give the same log lines and the same outcome. *)
Lemma scan_ext (infos infos' : list CameraInfo.t) (cams : list CameraDesc.t) :
  (forall c, In c cams ->
             existsb (reverse_entry c) infos = existsb (reverse_entry c) infos') ->
  scan infos cams = scan infos' cams.
Proof.
  induction cams as [|c cams IH]; intros H; simpl; [reflexivity|].
  rewrite <- (H c (or_introl eq_refl)).
  rewrite IH; [reflexivity|]. intros d Hd. apply H. now right.
Qed.

Lemma getRearCameraId_config_ext
      (w w' : World) (cfg cfg' : ConfigManager.t) (evs : IEvsEnumerator.t) :
  initialize w ConfigManager.fresh camera_config_json = (true, cfg) ->
  initialize w' ConfigManager.fresh camera_config_json = (true, cfg') ->
  getService w "EvsEnumeratorV1_0" = Some evs ->
  getService w' "EvsEnumeratorV1_0" = Some evs ->
  (forall c, In c (IEvsEnumerator.cameras evs) ->
             existsb (reverse_entry c) (ConfigManager.getCameras cfg)
             = existsb (reverse_entry c) (ConfigManager.getCameras cfg')) ->
  getRearCameraId w = getRearCameraId w'.
Proof.
  intros Hi Hi' Hs Hs' H.
  rewrite (getRearCameraId_run _ Hi Hs), (getRearCameraId_run _ Hi' Hs').
  now rewrite (scan_ext _ _ _ H).
Qed.

Lemma existsb_Permutation {A} (f : A -> bool) (l l' : list A) :
  Permutation l l' -> existsb f l = existsb f l'.
Proof.
  induction 1; simpl.
  - reflexivity.
  - now rewrite IHPermutation.
  - now rewrite !orb_assoc, (orb_comm (f y) (f x)).
  - congruence.
Qed.

Lemma existsb_filter_has_reverse (c : CameraDesc.t) (infos : list CameraInfo.t) :
  existsb (reverse_entry c) (filter has_reverse infos)
  = existsb (reverse_entry c) infos.
Proof.
  induction infos as [|i infos IH]; simpl; [reflexivity|].
  destruct (has_reverse i) eqn:E; simpl; rewrite IH; [reflexivity|].
  unfold reverse_entry. fold (has_reverse i). rewrite E.
  now rewrite andb_false_r.
Qed.

Lemma existsb_filter_enumerated
      (cams : list CameraDesc.t) (c : CameraDesc.t) (infos : list CameraInfo.t) :
  In c cams ->
  existsb (reverse_entry c) (filter (enumerated cams) infos)
  = existsb (reverse_entry c) infos.
Proof.
  intros Hc. induction infos as [|i infos IH]; simpl; [reflexivity|].
  destruct (enumerated cams i) eqn:E; simpl; rewrite IH; [reflexivity|].
  unfold reverse_entry.
  destruct (HidlString.eq (CameraDesc.cameraId c) (CameraInfo.cameraId i))
    eqn:Ei; [|reflexivity].
  exfalso. unfold enumerated in E.
  assert (existsb (fun c0 => HidlString.eq (CameraDesc.cameraId c0)
                                           (CameraInfo.cameraId i)) cams = true)
    as T by (apply existsb_exists; now exists c).
  congruence.
Qed.

(** The log lines of [scan]: one [FoundCamera] per camera looked at, then a
    [MatchedReverse] when, and only when, a camera was found. *)
Lemma scan_log (infos : list CameraInfo.t) (cams : list CameraDesc.t) :
  exists seen,
    fst (scan infos cams)
    = map FoundCamera seen
          ++ match snd (scan infos cams) with
             | Some id => [MatchedReverse (HidlString.c_str id)]
             | None => []
             end.
Proof.
  induction cams as [|c cams IH]; simpl.
  - now exists [].
  - destruct (existsb (reverse_entry c) infos).
    + now exists [printed c].
    + destruct (scan infos cams) as [log r]; simpl in *.
      destruct IH as [seen ->]. now exists (printed c :: seen).
Qed.

Lemma scan_found_iff (infos : list CameraInfo.t) (cams : list CameraDesc.t) :
  (exists c, In c cams /\ Qualifies infos c)
  <-> exists id, snd (scan infos cams) = Some id.
Proof.
  destruct (scan_FirstMatch infos cams)
    as [(pre & c & post & E & _ & Hc & -> & _) | (Hall & -> & _)].
  - split; [intros _; now eexists|]. intros _. exists c. split; [|exact Hc].
    rewrite E. apply in_or_app. right. now left.
  - split; [|intros [id H]; discriminate].
    intros (c & Hin & Hc). now destruct (Hall c Hin).
Qed.

Lemma scan_stops (infos : list CameraInfo.t) (pre post post' : list CameraDesc.t)
      (c : CameraDesc.t) :
  Qualifies infos c ->
  scan infos (pre ++ c :: post) = scan infos (pre ++ c :: post').
Proof.
  intros Hc. apply existsb_reverse_entry in Hc.
  induction pre as [|d pre IH]; simpl.
  - now rewrite Hc.
  - now rewrite IH.
Qed.

Lemma reverse_entry_same_id (c c' : CameraDesc.t) (infos : list CameraInfo.t) :
  CameraDesc.cameraId c' = CameraDesc.cameraId c ->
  existsb (reverse_entry c') infos = existsb (reverse_entry c) infos.
Proof.
  intros E. induction infos as [|i infos IH]; simpl; [reflexivity|].
  rewrite IH. unfold reverse_entry. now rewrite E.
Qed.

Lemma not_in_found_lines (id : string) (seen : list string) :
  ~ In (MatchedReverse id) (map FoundCamera seen).
Proof.
  induction seen as [|s seen IH]; simpl; [tauto|].
  intros [H|H]; [discriminate | exact (IH H)].
Qed.

Section Dependence.

Variables w w' : World.
Variables cfg cfg' : ConfigManager.t.
Variable evs : IEvsEnumerator.t.

Hypothesis config_loaded :
  initialize w ConfigManager.fresh camera_config_json = (true, cfg).
Hypothesis config_loaded' :
  initialize w' ConfigManager.fresh camera_config_json = (true, cfg').
Hypothesis service_found :
  getService w "EvsEnumeratorV1_0" = Some evs.
Hypothesis service_found' :
  getService w' "EvsEnumeratorV1_0" = Some evs.

(** X1. The order of the configured cameras does not matter: two
    configurations that hold the same cameras in different orders give the
    same result and the same log lines for the same enumeration. *)
Theorem getRearCameraId_config_order :
  Permutation (ConfigManager.getCameras cfg) (ConfigManager.getCameras cfg') ->
  getRearCameraId w = getRearCameraId w'.
Proof.
  intros P.
  apply (getRearCameraId_config_ext _ _ config_loaded config_loaded'
                                    service_found service_found').
  intros c _. now apply existsb_Permutation.
Qed.

(** X2. Configured cameras whose function string does not contain
    "reverse" do not matter: leaving them out of the configuration changes
    neither the result nor the log lines. *)
Theorem getRearCameraId_only_reverse_entries :
  ConfigManager.getCameras cfg'
  = filter has_reverse (ConfigManager.getCameras cfg) ->
  getRearCameraId w = getRearCameraId w'.
Proof.
  intros E.
  apply (getRearCameraId_config_ext _ _ config_loaded config_loaded'
                                    service_found service_found').
  intros c _. rewrite E. symmetry. apply existsb_filter_has_reverse.
Qed.

(** X3. Configured cameras that are not enumerated do not matter: leaving
    out of the configuration the cameras whose id, as a C string, no
    enumerated camera bears changes neither the result nor the log
    lines. *)
Theorem getRearCameraId_only_enumerated_entries :
  ConfigManager.getCameras cfg'
  = filter (enumerated (IEvsEnumerator.cameras evs))
           (ConfigManager.getCameras cfg) ->
  getRearCameraId w = getRearCameraId w'.
Proof.
  intros E.
  apply (getRearCameraId_config_ext _ _ config_loaded config_loaded'
                                    service_found service_found').
  intros c Hc. rewrite E. symmetry. now apply existsb_filter_enumerated.
Qed.

End Dependence.

Section Enumeration.

Variables w w' : World.
Variable cfg : ConfigManager.t.
Variables cams cams' : list CameraDesc.t.

Hypothesis config_loaded :
  initialize w ConfigManager.fresh camera_config_json = (true, cfg).
Hypothesis config_loaded' :
  initialize w' ConfigManager.fresh camera_config_json = (true, cfg).
Hypothesis service_found :
  getService w "EvsEnumeratorV1_0" = Some (IEvsEnumerator.mk cams).
Hypothesis service_found' :
  getService w' "EvsEnumeratorV1_0" = Some (IEvsEnumerator.mk cams').

(** X4. What is enumerated after a qualifying camera does not matter: two
    enumerations that agree up to and including a camera that qualifies
    give the same result, and the same cameras are looked at. *)
Theorem getRearCameraId_stops_at_match
        (pre post post' : list CameraDesc.t) (c : CameraDesc.t) :
  cams = pre ++ c :: post ->
  cams' = pre ++ c :: post' ->
  Qualifies (ConfigManager.getCameras cfg) c ->
  fst (getRearCameraId w) = fst (getRearCameraId w')
  /\ examined (snd (getRearCameraId w)) = examined (snd (getRearCameraId w')).
Proof.
  intros E E' Q.
  destruct (@result_is_scan _ _ _ config_loaded service_found) as [-> ->].
  destruct (@result_is_scan _ _ _ config_loaded' service_found') as [-> ->].
  simpl. rewrite E, E'. now rewrite (scan_stops pre post post' Q).
Qed.

(** X5. An enumerated camera that repeats the id of an earlier one does
    not matter: the result is that of the enumeration without the
    repetition. *)
Theorem getRearCameraId_repeated_camera
        (pre mid post : list CameraDesc.t) (c c' : CameraDesc.t) :
  cams = pre ++ c :: mid ++ c' :: post ->
  cams' = pre ++ c :: mid ++ post ->
  CameraDesc.cameraId c' = CameraDesc.cameraId c ->
  fst (getRearCameraId w) = fst (getRearCameraId w').
Proof.
  intros E E' Eid.
  destruct (@result_is_scan _ _ _ config_loaded service_found) as [-> _].
  destruct (@result_is_scan _ _ _ config_loaded' service_found') as [-> _].
  simpl. rewrite E, E'.
  destruct (existsb (reverse_entry c) (ConfigManager.getCameras cfg)) eqn:Q.
  - apply existsb_reverse_entry in Q.
    now rewrite (scan_stops pre (mid ++ c' :: post) (mid ++ post) Q).
  - rewrite <- (@reverse_entry_same_id c c' (ConfigManager.getCameras cfg) Eid) in Q.
    apply existsb_reverse_entry_false in Q.
    replace (pre ++ c :: mid ++ c' :: post)
      with ((pre ++ c :: mid) ++ c' :: post)
      by (now rewrite <- app_assoc).
    replace (pre ++ c :: mid ++ post) with ((pre ++ c :: mid) ++ post)
      by (now rewrite <- app_assoc).
    now rewrite (scan_skip _ _ Q).
Qed.

(** X6. The log tells a match from no match, also where the result does
    not: a [MatchedReverse] line is written exactly when some enumerated
    camera qualifies, and such a line is the last one of the log and
    carries the id that is returned, printed as a C string. *)
Theorem getRearCameraId_log_tells_match :
  ((exists c, In c cams /\ Qualifies (ConfigManager.getCameras cfg) c)
   <-> (exists id, In (MatchedReverse id) (snd (getRearCameraId w))))
  /\ (forall id,
         In (MatchedReverse id) (snd (getRearCameraId w)) ->
         HidlString.c_str (fst (getRearCameraId w)) = id
         /\ last (snd (getRearCameraId w)) MissingConfiguration
            = MatchedReverse id).
Proof.
  rewrite (getRearCameraId_run _ config_loaded service_found). simpl.
  rewrite (scan_found_iff (ConfigManager.getCameras cfg) cams).
  destruct (scan_log (ConfigManager.getCameras cfg) cams) as [seen Hl].
  destruct (scan (ConfigManager.getCameras cfg) cams) as [l [r|]];
    simpl in *; subst l.
  - assert (forall id,
               In (MatchedReverse id)
                  (map FoundCamera seen ++ [MatchedReverse (HidlString.c_str r)])
               -> id = HidlString.c_str r) as Only.
    { intros id H. apply in_app_or in H. destruct H as [H|[H|[]]].
      - now destruct (not_in_found_lines _ _ H).
      - now injection H. }
    split.
    + split; [intros _|intros _; now eexists].
      exists (HidlString.c_str r). do 3 right. apply in_or_app. right. now left.
    + intros id [H|[H|[H|H]]]; try discriminate.
      apply Only in H. subst id. split; [reflexivity|].
      destruct seen as [|s seen]; [reflexivity|]. simpl map. simpl app.
      change (last ((FoundCamera s :: map FoundCamera seen)
                      ++ [MatchedReverse (HidlString.c_str r)])
                   MissingConfiguration = MatchedReverse (HidlString.c_str r)).
      apply last_last.
  - rewrite app_nil_r. split.
    + split; [intros [id H]; discriminate|].
      intros [id [H|[H|[H|H]]]]; try discriminate.
      now destruct (not_in_found_lines _ _ H).
    + intros id [H|[H|[H|H]]]; try discriminate.
      now destruct (not_in_found_lines _ _ H).
Qed.

End Enumeration.

(** X7. A configured camera whose function string has fewer than seven
    characters, the empty string among them, matches no camera: the body
    of the loop over the configured cameras goes on to the next one and
    leaves everything as it was. *)
Theorem short_function_never_matches
        (c : CameraDesc.t) (i : CameraInfo.t) (fr : Frame) :
  String.length (CameraInfo.function i) < 7 ->
  inner_body c i fr = (Continue, fr).
Proof.
  intros Hlen. unfold inner_body.
  destruct (HidlString.eq (CameraDesc.cameraId c) (CameraInfo.cameraId i));
    [|reflexivity].
  destruct (negb (StdString.is_npos
                    (StdString.find (CameraInfo.function i) "reverse"))) eqn:E;
    [|reflexivity].
  apply StdStringFacts.find_found, Contains_length in E. simpl in E. lia.
Qed.

(* ================================================================== *)
(** ** The further properties at work *)

(** X1 on a configuration of two cameras, in both orders. *)
Lemma getRearCameraId_config_order_witness :
  Permutation [info "A" "front"; info "B" "reverse"]
              [info "B" "reverse"; info "A" "front"]
  /\ fst (getRearCameraId
            (world_of [info "A" "front"; info "B" "reverse"] [cam "B"])) = "B"
  /\ getRearCameraId
       (world_of [info "A" "front"; info "B" "reverse"] [cam "B"])
     = getRearCameraId
         (world_of [info "B" "reverse"; info "A" "front"] [cam "B"]).
Proof.
  split; [apply perm_swap|]. split; [reflexivity|].
  apply (@getRearCameraId_config_order
           (world_of [info "A" "front"; info "B" "reverse"] [cam "B"])
           (world_of [info "B" "reverse"; info "A" "front"] [cam "B"])
           (ConfigManager.mk [info "A" "front"; info "B" "reverse"])
           (ConfigManager.mk [info "B" "reverse"; info "A" "front"])
           (IEvsEnumerator.mk [cam "B"]));
    [reflexivity | reflexivity | reflexivity | reflexivity | apply perm_swap].
Defined.

(** X2 on a configuration with a front camera and a rear camera. *)
Lemma getRearCameraId_only_reverse_entries_witness :
  filter has_reverse [info "A" "front"; info "B" "rear reverse"]
  = [info "B" "rear reverse"]
  /\ getRearCameraId
       (world_of [info "A" "front"; info "B" "rear reverse"]
                 [cam "A"; cam "B"])
     = getRearCameraId
         (world_of [info "B" "rear reverse"] [cam "A"; cam "B"]).
Proof.
  split; [reflexivity|].
  apply (@getRearCameraId_only_reverse_entries
           (world_of [info "A" "front"; info "B" "rear reverse"]
                     [cam "A"; cam "B"])
           (world_of [info "B" "rear reverse"] [cam "A"; cam "B"])
           (ConfigManager.mk [info "A" "front"; info "B" "rear reverse"])
           (ConfigManager.mk [info "B" "rear reverse"])
           (IEvsEnumerator.mk [cam "A"; cam "B"]));
    reflexivity.
Defined.

(** X3 on two rear cameras A and B of which A is enumerated, under the
    id A NUL x. *)
Lemma getRearCameraId_only_enumerated_entries_witness :
  filter (enumerated [cam id_A_NUL_x]) [info "A" "reverse"; info "B" "reverse"]
  = [info "A" "reverse"]
  /\ fst (getRearCameraId
            (world_of [info "A" "reverse"; info "B" "reverse"]
                      [cam id_A_NUL_x])) = id_A_NUL_x
  /\ getRearCameraId
       (world_of [info "A" "reverse"; info "B" "reverse"] [cam id_A_NUL_x])
     = getRearCameraId (world_of [info "A" "reverse"] [cam id_A_NUL_x]).
Proof.
  split; [reflexivity|]. split; [reflexivity|].
  apply (@getRearCameraId_only_enumerated_entries
           (world_of [info "A" "reverse"; info "B" "reverse"] [cam id_A_NUL_x])
           (world_of [info "A" "reverse"] [cam id_A_NUL_x])
           (ConfigManager.mk [info "A" "reverse"; info "B" "reverse"])
           (ConfigManager.mk [info "A" "reverse"])
           (IEvsEnumerator.mk [cam id_A_NUL_x]));
    reflexivity.
Defined.

(** X4 on the enumerations B, A, C and B, A, where A qualifies. *)
Lemma getRearCameraId_stops_at_match_witness :
  Qualifies [info "A" "reverse"; info "C" "reverse"] (cam "A")
  /\ fst (getRearCameraId
            (world_of [info "A" "reverse"; info "C" "reverse"]
                      [cam "B"; cam "A"; cam "C"]))
     = fst (getRearCameraId
              (world_of [info "A" "reverse"; info "C" "reverse"]
                        [cam "B"; cam "A"]))
  /\ examined (snd (getRearCameraId
                      (world_of [info "A" "reverse"; info "C" "reverse"]
                                [cam "B"; cam "A"; cam "C"])))
     = examined (snd (getRearCameraId
                        (world_of [info "A" "reverse"; info "C" "reverse"]
                                  [cam "B"; cam "A"]))).
Proof.
  assert (Qualifies [info "A" "reverse"; info "C" "reverse"] (cam "A")) as Q.
  { exists (info "A" "reverse"). split; [now left|]. split; [reflexivity|].
    exists ""%string, ""%string. reflexivity. }
  split; [exact Q|].
  apply (@getRearCameraId_stops_at_match
           (world_of [info "A" "reverse"; info "C" "reverse"]
                     [cam "B"; cam "A"; cam "C"])
           (world_of [info "A" "reverse"; info "C" "reverse"]
                     [cam "B"; cam "A"])
           (ConfigManager.mk [info "A" "reverse"; info "C" "reverse"])
           [cam "B"; cam "A"; cam "C"] [cam "B"; cam "A"]
           eq_refl eq_refl eq_refl eq_refl
           [cam "B"] [cam "C"] [] (cam "A") eq_refl eq_refl Q).
Defined.

(** X5 on the enumeration B, B, A, where B is not configured. *)
Lemma getRearCameraId_repeated_camera_witness :
  fst (getRearCameraId (world_of [info "A" "reverse"] [cam "B"; cam "A"]))
  = "A"
  /\ fst (getRearCameraId
            (world_of [info "A" "reverse"] [cam "B"; cam "B"; cam "A"]))
     = fst (getRearCameraId
              (world_of [info "A" "reverse"] [cam "B"; cam "A"])).
Proof.
  split; [reflexivity|].
  apply (@getRearCameraId_repeated_camera
           (world_of [info "A" "reverse"] [cam "B"; cam "B"; cam "A"])
           (world_of [info "A" "reverse"] [cam "B"; cam "A"])
           (ConfigManager.mk [info "A" "reverse"])
           [cam "B"; cam "B"; cam "A"] [cam "B"; cam "A"]
           eq_refl eq_refl eq_refl eq_refl
           [] [] [cam "A"] (cam "B") (cam "B") eq_refl eq_refl eq_refl).
Defined.

(** X6 on an enumerated camera of id A NUL x that matches the configured
    camera A: the result is the whole id, and the log has the line of the
    match with the id as a C string. *)
Lemma getRearCameraId_log_tells_match_witness :
  fst (getRearCameraId (world_of [info "A" "reverse"] [cam "B"; cam id_A_NUL_x]))
  = id_A_NUL_x
  /\ snd (getRearCameraId
            (world_of [info "A" "reverse"] [cam "B"; cam id_A_NUL_x]))
     = [AcquiringEnumerator; RequestingCameraList; CallbackReceived 2;
        FoundCamera "B"; FoundCamera "A"; MatchedReverse "A"]
  /\ ((exists c, In c [cam "B"; cam id_A_NUL_x]
                 /\ Qualifies [info "A" "reverse"] c)
      <-> (exists id,
              In (MatchedReverse id)
                 (snd (getRearCameraId
                         (world_of [info "A" "reverse"]
                                   [cam "B"; cam id_A_NUL_x])))))
  /\ (forall id,
         In (MatchedReverse id)
            (snd (getRearCameraId
                    (world_of [info "A" "reverse"]
                              [cam "B"; cam id_A_NUL_x]))) ->
         HidlString.c_str
           (fst (getRearCameraId
                   (world_of [info "A" "reverse"] [cam "B"; cam id_A_NUL_x])))
         = id
         /\ last (snd (getRearCameraId
                         (world_of [info "A" "reverse"]
                                   [cam "B"; cam id_A_NUL_x])))
                 MissingConfiguration
            = MatchedReverse id).
Proof.
  split; [reflexivity|]. split; [reflexivity|].
  exact (@getRearCameraId_log_tells_match
           (world_of [info "A" "reverse"] [cam "B"; cam id_A_NUL_x])
           (ConfigManager.mk [info "A" "reverse"])
           [cam "B"; cam id_A_NUL_x] eq_refl eq_refl).
Defined.

(** X7 on a configured camera of function "rear". *)
Lemma short_function_never_matches_witness :
  String.length (CameraInfo.function (info "A" "rear")) < 7
  /\ inner_body (cam "A") (info "A" "rear")
                (mkFrame [cam "A"] (ConfigManager.mk [info "A" "rear"]) "" [])
     = (Continue,
        mkFrame [cam "A"] (ConfigManager.mk [info "A" "rear"]) "" []).
Proof.
  split; [simpl; lia|].
  apply (@short_function_never_matches
           (cam "A") (info "A" "rear")
           (mkFrame [cam "A"] (ConfigManager.mk [info "A" "rear"]) "" [])).
  simpl; lia.
Defined.
